(** * XLocation: composition and scaling of locations

    A shallow embedding of [Xbim.Geometry.Engine/BRep/XLocation.cpp].

    The two methods of [XLocation] are thin wrappers around the geometry
    kernel's transform type [gp_Trsf]: they read the transform wrapped by
    managed objects, call the kernel, and allocate a new managed object for
    the result.  The embedding therefore has three layers:

    - the kernel, taken as an interface ([TransformKernel]): its operations
      may raise the kernel's own exceptions;
    - the managed store: garbage-collected objects at addresses, handles
      ([T^]) that may be [nullptr], allocation with [gcnew];
    - the two methods, written in a state-and-exception monad over the
      store, statement by statement as in the source. *)

From Stdlib Require Import ZArith.
From Stdlib.Floats Require Import SpecFloat.
From stdpp Require Import base option gmap fin_maps fin_sets.

(** ** Scalars

    [double] values are IEEE-754 binary64 numbers: signed zeros, finite
    numbers, infinities and NaN. *)

Definition double : Type := spec_float.

Definition double_prec : Z := 53.
Definition double_emax : Z := 1024.

Definition double_zero : double := S754_zero false.
Definition double_one : double := S754_finite false 4503599627370496 (-52).
Definition double_two : double := S754_finite false 4503599627370496 (-51).
Definition double_three : double := S754_finite false 6755399441055744 (-51).
Definition double_minus_one : double := S754_finite true 4503599627370496 (-52).
Definition double_infinity : double := S754_infinity false.
Definition double_nan : double := S754_nan.

Definition double_mul : double -> double -> double := SFmul double_prec double_emax.
Definition double_add : double -> double -> double := SFadd double_prec double_emax.
Definition double_eqb : double -> double -> bool := SFeqb.

(** ** The transform kernel

    A call into the kernel either completes with a value or raises one of
    the kernel's exceptions. *)

Inductive kernel_result (E T : Type) : Type :=
  | Done (t : T)
  | Raised (e : E).

Arguments Done {E T} t.
Arguments Raised {E T} e.

(** What the source uses of the kernel: the transform type with its default
    constructor ([gp_Trsf scaler;], the identity transform), the in-place
    setter [SetScaleFactor] (here returning the updated value), the binary
    composition [Multiplied], and the identity predicate behind the
    [IsIdentity] property. *)

Class TransformKernel : Type := {
  gp_Trsf : Type;
  Standard_Failure : Type;
  gp_Trsf_new : gp_Trsf;
  gp_Trsf_SetScaleFactor : double -> gp_Trsf -> kernel_result Standard_Failure gp_Trsf;
  gp_Trsf_Multiplied : gp_Trsf -> gp_Trsf -> kernel_result Standard_Failure gp_Trsf;
  gp_Trsf_IsIdentity : gp_Trsf -> bool
}.

(** ** The managed store *)

Definition address : Type := positive.

(** A handle [T^]: [None] is [nullptr]. *)
Definition handle : Type := option address.

Definition is_nullptr (p : handle) : bool :=
  match p with
  | None => true
  | Some _ => false
  end.

Section Store.
Context {K : TransformKernel} {Foreign : Type}.

(** Objects implementing [IXLocation]: the native-backed [XLocation],
    which wraps a kernel transform by value, or an instance of some other
    implementation, about which nothing but its state is known. *)
Inductive object : Type :=
  | XLocation_obj (transform : gp_Trsf)
  | Foreign_obj (state : Foreign).

(** The outcome of running managed code: it returns, or a kernel exception
    propagates, or the run is [Invalid] because a handle that was
    dereferenced does not designate a live [XLocation] (which well-formed
    managed code rules out for [this]). *)
Inductive outcome (A : Type) : Type :=
  | Return (a : A)
  | Throw (e : Standard_Failure)
  | Invalid.

Definition M (A : Type) : Type := gmap address object -> outcome A * gmap address object.

Definition ret {A : Type} (a : A) : M A := fun h => (Return A a, h).

Definition bind {A B : Type} (m : M A) (k : A -> M B) : M B :=
  fun h =>
    match m h with
    | (Return _ a, h') => k a h'
    | (Throw _ e, h') => (Throw B e, h')
    | (Invalid _, h') => (Invalid B, h')
    end.

(** A call into the kernel from managed code. *)
Definition kernel_call {A : Type} (r : kernel_result Standard_Failure A) : M A :=
  fun h =>
    match r with
    | Done a => (Return A a, h)
    | Raised e => (Throw A e, h)
    end.

(** [gcnew]: the new object lives at an address not in use. *)
Definition gcnew (o : object) : M handle :=
  fun h => let a := fresh (dom h) in (Return handle (Some a), <[a := o]> h).

(** [a || b] of C++: [b] is evaluated only when [a] is false. *)
Definition orM (a b : M bool) : M bool :=
  bind a (fun x => if x then ret true else b).
End Store.

Arguments Return {K A} a.
Arguments Throw {K A} e.
Arguments Invalid {K A}.

Notation "'let!' x ':=' c 'in' k" := (bind c (fun x => k))
  (at level 10, x name, c at level 100, k at level 200).

Infix "|||" := orM (at level 50, left associativity).

Module XLocation.
Section Methods.
Context {K : TransformKernel} {Foreign : Type}.

#[local] Abbreviation object := (@object K Foreign).
#[local] Abbreviation M := (@M K Foreign).

(** Modelled from the spec: [XLocation.h] is not among the sources.
    [Ref()] gives the transform wrapped by the instance. *)
Definition Ref (self : handle) : M gp_Trsf :=
  fun h =>
    match self with
    | None => (Invalid, h)
    | Some a =>
        match h !! a with
        | Some (XLocation_obj t) => (Return t, h)
        | Some (Foreign_obj _) => (Invalid, h)
        | None => (Invalid, h)
        end
    end.

(** Modelled from the spec: [XLocation.h] is not among the sources.
    The [IsIdentity] property is true if the wrapped transform is the
    identity transform, as decided by the kernel's identity predicate. *)
Definition IsIdentity (self : handle) : M bool :=
  let! t := Ref self in ret (gp_Trsf_IsIdentity t).

(** Modelled from the spec: [XLocation.h] is not among the sources.
    [gcnew XLocation(t)] creates a location wrapping a copy of [t]. *)
Definition gcnew_XLocation (t : gp_Trsf) : M handle :=
  gcnew (XLocation_obj (Foreign := Foreign) t).

(** [dynamic_cast<XLocation^>(location)]: the same handle when the object
    is an [XLocation], [nullptr] when it is not or when [location] is
    [nullptr]. *)
Definition dynamic_cast_XLocation (location : handle) : M handle :=
  fun h =>
    match location with
    | None => (Return None, h)
    | Some a =>
        match h !! a with
        | Some (XLocation_obj _) => (Return (Some a), h)
        | Some (Foreign_obj _) => (Return None, h)
        | None => (Invalid, h)
        end
    end.

(** [IXLocation^ XLocation::Multiplied(IXLocation^ location)] *)
Definition Multiplied (this : address) (location : handle) : M handle :=
  let! xbimLoc := dynamic_cast_XLocation location in
  let! short := ret (is_nullptr location) ||| ret (is_nullptr xbimLoc)
                ||| IsIdentity xbimLoc in
  if (short : bool) then
    let! mine := Ref (Some this) in
    gcnew_XLocation mine
  else
    let! theirs := Ref xbimLoc in
    let! mine := Ref (Some this) in
    let! product := kernel_call (gp_Trsf_Multiplied theirs mine) in
    gcnew_XLocation product.

(** [IXLocation^ XLocation::ScaledBy(double scale)] *)
Definition ScaledBy (this : address) (scale : double) : M handle :=
  let scaler := gp_Trsf_new in
  let! scaler := kernel_call (gp_Trsf_SetScaleFactor scale scaler) in
  let! mine := Ref (Some this) in
  let! product := kernel_call (gp_Trsf_Multiplied mine scaler) in
  gcnew_XLocation product.
End Methods.
End XLocation.

(** ** A small kernel to run the methods on

    One-dimensional similarities [x |-> scale * x + loc] in [double]
    arithmetic.  It implements the interface above and serves to evaluate
    the methods on concrete stores; it does not stand for the geometry
    kernel the engine links against. *)

Module Kernel1D.
Record trsf : Type := Trsf { scale : double; loc : double }.

Inductive failure : Type := ConstructionError.

Definition identity : trsf := Trsf double_one double_zero.

Definition is_identity (t : trsf) : bool :=
  double_eqb (scale t) double_one && double_eqb (loc t) double_zero.

(** NaN is refused; every other factor, zero and the infinities
    included, is stored as it is. *)
Definition set_scale_factor (s : double) (t : trsf) : kernel_result failure trsf :=
  match s with
  | S754_nan => Raised ConstructionError
  | _ => Done (Trsf s (loc t))
  end.

(** [multiplied a b] is [a] after [b]: [x |-> a (b x)]. *)
Definition multiplied (a b : trsf) : kernel_result failure trsf :=
  if is_identity b then Done a
  else if is_identity a then Done b
  else Done (Trsf (double_mul (scale a) (scale b))
                  (double_add (loc a) (double_mul (scale a) (loc b)))).

#[export] Instance kernel : TransformKernel := {|
  gp_Trsf := trsf;
  Standard_Failure := failure;
  gp_Trsf_new := identity;
  gp_Trsf_SetScaleFactor := set_scale_factor;
  gp_Trsf_Multiplied := multiplied;
  gp_Trsf_IsIdentity := is_identity
|}.

(** Sample transforms and a sample store: two [XLocation]s, a location of
    another implementation, and an [XLocation] wrapping the identity. *)
Definition shift_one : trsf := Trsf double_one double_one.
Definition twice : trsf := Trsf double_two double_zero.

Definition store : gmap address (@object kernel unit) :=
  <[1%positive := XLocation_obj shift_one]>
  (<[2%positive := XLocation_obj twice]>
  (<[3%positive := Foreign_obj tt]>
  (<[4%positive := XLocation_obj identity]> ∅))).

(** A second store, where equal transforms live at other addresses. *)
Definition other_store : gmap address (@object kernel unit) :=
  <[7%positive := XLocation_obj shift_one]>
  (<[9%positive := XLocation_obj twice]> ∅).
End Kernel1D.

(** ** Observing a run *)

Section Observations.
Context {K : TransformKernel} {Foreign : Type}.

#[local] Abbreviation store := (gmap address (@object K Foreign)).

(** A handle is well formed in a store when it is [nullptr] or designates
    a live object; managed code never holds any other. *)
Definition valid_handle (h : store) (p : handle) : bool :=
  match p with
  | None => true
  | Some a => match h !! a with Some _ => true | None => false end
  end.

(** The transform a handle gives access to: that of the [XLocation] it
    designates, none for [nullptr] and for other implementations. *)
Definition native_transform (h : store) (p : handle) : option gp_Trsf :=
  match p with
  | None => None
  | Some a =>
      match h !! a with
      | Some (XLocation_obj t) => Some t
      | _ => None
      end
  end.

(** The transform wrapped by the location a run returned. *)
Definition result_transform (r : outcome handle * store) : outcome gp_Trsf :=
  match r with
  | (Return p, h') =>
      match native_transform h' p with
      | Some t => Return t
      | None => Invalid
      end
  | (Throw e, _) => Throw e
  | (Invalid, _) => Invalid
  end.

(** A computation that only reads the store. *)
Definition reads {A : Type} (m : M (K := K) (Foreign := Foreign) A) : Prop :=
  forall h, (m h).2 = h.

(** A computation that, when it returns, has added exactly one
    [XLocation] at the address [gcnew] picks and returns its handle, and
    otherwise has left the store as it was. *)
Definition allocates (m : M (K := K) (Foreign := Foreign) handle) : Prop :=
  forall h,
    match m h with
    | (Return p, h') =>
        exists t, p = Some (fresh (dom h)) /\
                  h' = <[fresh (dom h) := XLocation_obj t]> h
    | (_, h') => h' = h
    end.
(** The short-circuit branch of [Multiplied]: [gcnew XLocation(Ref())]
    with the receiver's transform [mine]. *)
Definition copy_of_receiver (mine : gp_Trsf) : M (K := K) (Foreign := Foreign) handle :=
  XLocation.gcnew_XLocation mine.

(** The last two steps of the composition branch and of [ScaledBy]:
    [gcnew XLocation(x.Multiplied(y))]. *)
Definition composed (x y : gp_Trsf) : M (K := K) (Foreign := Foreign) handle :=
  let! product := kernel_call (gp_Trsf_Multiplied x y) in
  XLocation.gcnew_XLocation product.
End Observations.

(** ** Calls and sequences of calls

    A client of the class can only call the two methods.  A [call] names
    one of them with its receiver and argument; [invoke] runs it. *)

Inductive call : Type :=
  | Call_Multiplied (this : address) (location : handle)
  | Call_ScaledBy (this : address) (scale : double).

Section Calls.
Context {K : TransformKernel} {Foreign : Type}.

#[local] Abbreviation store := (gmap address (@object K Foreign)).

Definition invoke (c : call) : M (K := K) (Foreign := Foreign) handle :=
  match c with
  | Call_Multiplied this location => XLocation.Multiplied this location
  | Call_ScaledBy this scale => XLocation.ScaledBy this scale
  end.

(** The receiver of a call designates a live [XLocation] and its argument,
    if it has one, is a well-formed handle. *)
Definition live_XLocation (h : store) (a : address) : bool :=
  match h !! a with
  | Some (XLocation_obj _) => true
  | _ => false
  end.

Definition call_ready (h : store) (c : call) : bool :=
  match c with
  | Call_Multiplied this location => live_XLocation h this && valid_handle h location
  | Call_ScaledBy this _ => live_XLocation h this
  end.

(** The store left by calls made one after the other, whatever their
    outcomes (an exception is caught by the client and the next call made). *)
Fixpoint run_calls (cs : list call) (h : store) : store :=
  match cs with
  | [] => h
  | c :: cs' => run_calls cs' (invoke c h).2
  end.

(** How many of these calls returned. *)
Fixpoint returned_calls (cs : list call) (h : store) : nat :=
  match cs with
  | [] => 0
  | c :: cs' =>
      match invoke c h with
      | (Return _, h') => S (returned_calls cs' h')
      | (_, h') => returned_calls cs' h'
      end
  end.
End Calls.

Definition double_six : double := S754_finite false 6755399441055744 (-50).

(** ** A kernel that refuses results out of range

    The same one-dimensional similarities, in a kernel that raises where
    [Kernel1D] lets a value through: a scale factor that is zero or not
    finite is refused, and so is a product whose coefficients overflow. *)

Module KernelChecked.
Inductive failure : Type := ConstructionError | NumericError.

Definition is_finite (x : double) : bool :=
  match x with
  | S754_zero _ | S754_finite _ _ _ => true
  | S754_infinity _ | S754_nan => false
  end.

Definition is_zero (x : double) : bool :=
  match x with
  | S754_zero _ => true
  | _ => false
  end.

Definition set_scale_factor (s : double) (t : Kernel1D.trsf)
  : kernel_result failure Kernel1D.trsf :=
  if is_zero s || negb (is_finite s) then Raised ConstructionError
  else Done (Kernel1D.Trsf s (Kernel1D.loc t)).

Definition multiplied (a b : Kernel1D.trsf) : kernel_result failure Kernel1D.trsf :=
  if Kernel1D.is_identity b then Done a
  else if Kernel1D.is_identity a then Done b
  else
    let s := double_mul (Kernel1D.scale a) (Kernel1D.scale b) in
    let l := double_add (Kernel1D.loc a) (double_mul (Kernel1D.scale a) (Kernel1D.loc b)) in
    if is_finite s && is_finite l then Done (Kernel1D.Trsf s l)
    else Raised NumericError.

Definition kernel : TransformKernel := {|
  gp_Trsf := Kernel1D.trsf;
  Standard_Failure := failure;
  gp_Trsf_new := Kernel1D.identity;
  gp_Trsf_SetScaleFactor := set_scale_factor;
  gp_Trsf_Multiplied := multiplied;
  gp_Trsf_IsIdentity := Kernel1D.is_identity
|}.

(** 2^1023: doubling it overflows. *)
Definition double_huge : double := S754_finite false 4503599627370496 971.

Definition huge : Kernel1D.trsf := Kernel1D.Trsf double_huge double_zero.

Definition store : gmap address (@object kernel unit) :=
  <[1%positive := XLocation_obj (K := kernel) huge]>
  (<[2%positive := XLocation_obj (K := kernel) Kernel1D.twice]>
  (<[3%positive := XLocation_obj (K := kernel) Kernel1D.identity]> ∅)).
End KernelChecked.

(** ** A kernel that records what it is asked

    A transform is the word of the scale factors it was composed from, in
    order, so the transform a location wraps shows which compositions the
    kernel was asked for.  A word counts as an identity when all its
    factors are 1.0; such a word is not a unit of the composition. *)

Module KernelTrace.
Definition trsf : Type := list double.

Definition is_identity (t : trsf) : bool :=
  forallb (fun s => double_eqb s double_one) t.

Definition set_scale_factor (s : double) (t : trsf) : kernel_result Empty_set trsf :=
  Done [s].

Definition multiplied (a b : trsf) : kernel_result Empty_set trsf :=
  Done (a ++ b).

Definition kernel : TransformKernel := {|
  gp_Trsf := trsf;
  Standard_Failure := Empty_set;
  gp_Trsf_new := [];
  gp_Trsf_SetScaleFactor := set_scale_factor;
  gp_Trsf_Multiplied := multiplied;
  gp_Trsf_IsIdentity := is_identity
|}.

Definition store : gmap address (@object kernel unit) :=
  <[1%positive := XLocation_obj (K := kernel) [double_two]]>
  (<[2%positive := XLocation_obj (K := kernel) [double_one]]> ∅).
End KernelTrace.

(** ** How the primitives treat the store *)

Section StoreLemmas.
Context {K : TransformKernel} {Foreign : Type}.

#[local] Abbreviation store := (gmap address (@object K Foreign)).
#[local] Abbreviation M := (@M K Foreign).

Implicit Types (h : store) (this a b : address) (location p : handle).

Lemma fresh_address_unused h : h !! fresh (dom h) = None.
Proof. apply not_elem_of_dom, is_fresh. Qed.

Lemma reads_ret {A} (x : A) : reads (ret x : M A).
Proof. intros h; reflexivity. Qed.

Lemma reads_kernel_call {A} (r : kernel_result Standard_Failure A) :
  reads (kernel_call r : M A).
Proof. intros h; destruct r; reflexivity. Qed.

Lemma reads_Ref p : reads (XLocation.Ref p : M gp_Trsf).
Proof.
  intros h; unfold XLocation.Ref.
  destruct p as [a|]; [|reflexivity].
  destruct (h !! a) as [[t|f]|]; reflexivity.
Qed.

Lemma reads_dynamic_cast p : reads (XLocation.dynamic_cast_XLocation p : M handle).
Proof.
  intros h; unfold XLocation.dynamic_cast_XLocation.
  destruct p as [a|]; [|reflexivity].
  destruct (h !! a) as [[t|f]|]; reflexivity.
Qed.

Lemma reads_bind {A B} (m : M A) (k : A -> M B) :
  reads m -> (forall x, reads (k x)) -> reads (bind m k).
Proof.
  intros Hm Hk h; unfold bind.
  specialize (Hm h); destruct (m h) as [[x|e|] h']; simpl in *; subst h'.
  - apply Hk.
  - reflexivity.
  - reflexivity.
Qed.

Lemma reads_orM (x y : M bool) : reads x -> reads y -> reads (x ||| y).
Proof.
  intros Hx Hy; apply reads_bind; [exact Hx|].
  intros [|]; [apply reads_ret | exact Hy].
Qed.

Lemma reads_IsIdentity p : reads (XLocation.IsIdentity p : M bool).
Proof.
  apply reads_bind; [apply reads_Ref | intros t; apply reads_ret].
Qed.

Lemma allocates_gcnew_XLocation (t : gp_Trsf) :
  allocates (XLocation.gcnew_XLocation (Foreign := Foreign) t).
Proof. intros h; simpl; eauto. Qed.

Lemma allocates_bind {A} (m : M A) (k : A -> M handle) :
  reads m -> (forall x, allocates (k x)) -> allocates (bind m k).
Proof.
  intros Hm Hk h; unfold bind.
  specialize (Hm h); destruct (m h) as [[x|e|] h']; simpl in *; subst h'.
  - apply Hk.
  - reflexivity.
  - reflexivity.
Qed.

Lemma allocates_Multiplied this location :
  allocates (XLocation.Multiplied (Foreign := Foreign) this location).
Proof.
  unfold XLocation.Multiplied.
  apply allocates_bind; [apply reads_dynamic_cast | intros xbimLoc].
  apply allocates_bind.
  - repeat apply reads_orM; auto using reads_ret, reads_IsIdentity.
  - intros [|].
    + apply allocates_bind; [apply reads_Ref | intros mine].
      apply allocates_gcnew_XLocation.
    + apply allocates_bind; [apply reads_Ref | intros theirs].
      apply allocates_bind; [apply reads_Ref | intros mine].
      apply allocates_bind; [apply reads_kernel_call | intros product].
      apply allocates_gcnew_XLocation.
Qed.

Lemma allocates_ScaledBy this scale :
  allocates (XLocation.ScaledBy (Foreign := Foreign) this scale).
Proof.
  unfold XLocation.ScaledBy.
  apply allocates_bind; [apply reads_kernel_call | intros scaler].
  apply allocates_bind; [apply reads_Ref | intros mine].
  apply allocates_bind; [apply reads_kernel_call | intros product].
  apply allocates_gcnew_XLocation.
Qed.

(** What an allocating run leaves behind. *)
Lemma allocates_frame (m : M handle) h :
  allocates m -> h ⊆ (m h).2.
Proof.
  intros Hm; specialize (Hm h).
  destruct (m h) as [[p|e|] h']; simpl; try (subst h'; reflexivity).
  destruct Hm as (t & _ & ->).
  apply insert_subseteq, fresh_address_unused.
Qed.

Lemma allocates_returns (m : M handle) h p h' :
  allocates m -> m h = (Return p, h') ->
  exists t, p = Some (fresh (dom h)) /\
            h' = <[fresh (dom h) := XLocation_obj t]> h.
Proof. intros Hm E; specialize (Hm h); rewrite E in Hm; exact Hm. Qed.
End StoreLemmas.

(** ** The two methods, run on a store with a live receiver *)

Section Runs.
Context {K : TransformKernel} {Foreign : Type}.

#[local] Abbreviation store := (gmap address (@object K Foreign)).

Implicit Types (h : store) (this a b : address) (location p : handle).
Implicit Types (tA tB r : gp_Trsf).

Lemma Ref_live h a t :
  h !! a = Some (XLocation_obj t) -> XLocation.Ref (Some a) h = (Return t, h).
Proof. intros E; unfold XLocation.Ref; rewrite E; reflexivity. Qed.

Lemma Multiplied_run h this location tA :
  h !! this = Some (XLocation_obj tA) ->
  valid_handle h location = true ->
  XLocation.Multiplied this location h =
    match native_transform h location with
    | Some tB =>
        if gp_Trsf_IsIdentity tB then copy_of_receiver tA h else composed tB tA h
    | None => copy_of_receiver tA h
    end.
Proof.
  intros Hthis Hloc.
  unfold XLocation.Multiplied, XLocation.dynamic_cast_XLocation, orM,
    XLocation.IsIdentity, copy_of_receiver, composed, bind, ret,
    native_transform, valid_handle in *.
  destruct location as [b|].
  - destruct (h !! b) as [[tB|f]|] eqn:Eb; [| |discriminate].
    + cbn [is_nullptr]; cbv beta iota.
      rewrite (Ref_live h b tB Eb); cbv beta iota.
      destruct (gp_Trsf_IsIdentity tB); rewrite ?(Ref_live h b tB Eb);
        cbv beta iota; rewrite (Ref_live h this tA Hthis); reflexivity.
    + cbn [is_nullptr]; cbv beta iota.
      rewrite (Ref_live h this tA Hthis); reflexivity.
  - cbn [is_nullptr]; cbv beta iota.
    rewrite (Ref_live h this tA Hthis); reflexivity.
Qed.

Lemma ScaledBy_run h this scale tA :
  h !! this = Some (XLocation_obj tA) ->
  XLocation.ScaledBy this scale h =
    match gp_Trsf_SetScaleFactor scale gp_Trsf_new with
    | Done scaler => composed tA scaler h
    | Raised e => (Throw e, h)
    end.
Proof.
  intros Hthis.
  unfold XLocation.ScaledBy, composed, bind, kernel_call.
  destruct (gp_Trsf_SetScaleFactor scale gp_Trsf_new) as [scaler|e]; [|reflexivity].
  rewrite (Ref_live h this tA Hthis); reflexivity.
Qed.

Lemma result_transform_copy h tA :
  result_transform (copy_of_receiver tA h) = Return tA.
Proof.
  unfold copy_of_receiver, XLocation.gcnew_XLocation, gcnew, result_transform,
    native_transform.
  rewrite lookup_insert_eq; reflexivity.
Qed.

Lemma result_transform_composed h tB tA :
  result_transform (composed tB tA h) =
    match gp_Trsf_Multiplied tB tA with
    | Done r => Return r
    | Raised e => Throw e
    end.
Proof.
  unfold composed, bind, kernel_call.
  destruct (gp_Trsf_Multiplied tB tA) as [r|e]; [|reflexivity].
  apply (result_transform_copy h r).
Qed.
End Runs.

(** ** Properties of [Multiplied] and [ScaledBy] *)

Section Properties.
Context {K : TransformKernel} {Foreign : Type}.

#[local] Abbreviation store := (gmap address (@object K Foreign)).

Implicit Types (h : store) (this a b : address) (location p : handle).
Implicit Types (tA tB r scaler : gp_Trsf) (scale : double).

(** The address [gcnew] picks is none of the addresses in use: not the
    receiver's, not the argument's. *)
Lemma fresh_address_distinct h this location tA :
  h !! this = Some (XLocation_obj tA) ->
  valid_handle h location = true ->
  fresh (dom h) <> this /\ location <> Some (fresh (dom h)).
Proof.
  intros Hthis Hloc.
  pose proof (fresh_address_unused h) as Hnew.
  split.
  - intros E; rewrite E in Hnew; congruence.
  - intros ->; simpl in Hloc; rewrite Hnew in Hloc; discriminate.
Qed.

(** C1. When the argument is a live [XLocation] whose transform is not the
    identity, [A.Multiplied(B)] returns a new location wrapping the
    kernel's [B.transform.Multiplied(A.transform)]: the argument's
    transform is the one the kernel method is called on, the receiver's
    is its operand.  It is the other order's product only where the two
    products coincide. *)
Theorem Multiplied_composes_argument_first h this b tA tB r :
  h !! this = Some (XLocation_obj tA) ->
  h !! b = Some (XLocation_obj tB) ->
  gp_Trsf_IsIdentity tB = false ->
  gp_Trsf_Multiplied tB tA = Done r ->
  XLocation.Multiplied this (Some b) h =
    (Return (Some (fresh (dom h))), <[fresh (dom h) := XLocation_obj r]> h)
  /\ h !! fresh (dom h) = None
  /\ result_transform (XLocation.Multiplied this (Some b) h) = Return r
  /\ forall r', gp_Trsf_Multiplied tA tB = Done r' -> r' <> r ->
       result_transform (XLocation.Multiplied this (Some b) h) <> Return r'.
Proof.
  intros Hthis Hb Hid Hmul.
  assert (Hrun : XLocation.Multiplied this (Some b) h = composed tB tA h).
  { rewrite (Multiplied_run h this (Some b) tA Hthis).
    - simpl; rewrite Hb, Hid; reflexivity.
    - simpl; rewrite Hb; reflexivity. }
  assert (Hres : result_transform (XLocation.Multiplied this (Some b) h) = Return r).
  { rewrite Hrun, result_transform_composed, Hmul; reflexivity. }
  repeat split.
  - rewrite Hrun; unfold composed, bind, kernel_call; rewrite Hmul; reflexivity.
  - apply fresh_address_unused.
  - exact Hres.
  - intros r' _ Hne; rewrite Hres; congruence.
Qed.

(** C2. When the argument is [nullptr], or is not an [XLocation], or is an
    [XLocation] wrapping an identity transform, [L.Multiplied(argument)]
    returns (it does not throw) a new location wrapping a copy of [L]'s
    own transform; the kernel's composition is not called. *)
Theorem Multiplied_short_circuit h this location tA :
  h !! this = Some (XLocation_obj tA) ->
  (location = None
   \/ (exists b f, location = Some b /\ h !! b = Some (Foreign_obj f))
   \/ (exists b tB, location = Some b /\ h !! b = Some (XLocation_obj tB)
                    /\ gp_Trsf_IsIdentity tB = true)) ->
  XLocation.Multiplied this location h =
    (Return (Some (fresh (dom h))), <[fresh (dom h) := XLocation_obj tA]> h)
  /\ h !! fresh (dom h) = None
  /\ result_transform (XLocation.Multiplied this location h) = Return tA.
Proof.
  intros Hthis Hcase.
  assert (Hrun : XLocation.Multiplied this location h = copy_of_receiver tA h).
  { destruct Hcase as [-> | [(b & f & -> & Hb) | (b & tB & -> & Hb & Hid)]].
    - rewrite (Multiplied_run h this None tA Hthis); reflexivity.
    - rewrite (Multiplied_run h this (Some b) tA Hthis).
      + simpl; rewrite Hb; reflexivity.
      + simpl; rewrite Hb; reflexivity.
    - rewrite (Multiplied_run h this (Some b) tA Hthis).
      + simpl; rewrite Hb, Hid; reflexivity.
      + simpl; rewrite Hb; reflexivity. }
  repeat split.
  - rewrite Hrun; reflexivity.
  - apply fresh_address_unused.
  - rewrite Hrun; apply result_transform_copy.
Qed.

(** C3. [L.ScaledBy(scale)] takes a default-constructed (identity)
    transform, sets its scale factor to [scale], composes it as
    [L.transform.Multiplied(scaler)] and returns the product wrapped in a
    new location. *)
Theorem ScaledBy_composes_scaler_last h this scale tA scaler r :
  h !! this = Some (XLocation_obj tA) ->
  gp_Trsf_SetScaleFactor scale gp_Trsf_new = Done scaler ->
  gp_Trsf_Multiplied tA scaler = Done r ->
  XLocation.ScaledBy this scale h =
    (Return (Some (fresh (dom h))), <[fresh (dom h) := XLocation_obj r]> h)
  /\ h !! fresh (dom h) = None
  /\ result_transform (XLocation.ScaledBy this scale h) = Return r.
Proof.
  intros Hthis Hset Hmul.
  assert (Hrun : XLocation.ScaledBy this scale h = composed tA scaler h).
  { rewrite (ScaledBy_run h this scale tA Hthis), Hset; reflexivity. }
  repeat split.
  - rewrite Hrun; unfold composed, bind, kernel_call; rewrite Hmul; reflexivity.
  - apply fresh_address_unused.
  - rewrite Hrun, result_transform_composed, Hmul; reflexivity.
Qed.

(** C4. [ScaledBy] hands every [scale] to the kernel as it is (zero,
    negative, infinite or NaN alike).  If the call throws, the exception
    is one the kernel raised, from [SetScaleFactor] on that very [scale]
    or from the composition; whenever the kernel completes both calls,
    [ScaledBy] returns a location wrapping the kernel's product, whatever
    it is.  In particular this holds for [scale] zero. *)
Theorem ScaledBy_defers_to_kernel h this scale tA :
  h !! this = Some (XLocation_obj tA) ->
  (forall e, (XLocation.ScaledBy this scale h).1 = Throw e ->
     gp_Trsf_SetScaleFactor scale gp_Trsf_new = Raised e
     \/ exists scaler, gp_Trsf_SetScaleFactor scale gp_Trsf_new = Done scaler
                       /\ gp_Trsf_Multiplied tA scaler = Raised e)
  /\ (XLocation.ScaledBy this scale h).1 <> Invalid
  /\ (forall scaler r,
        gp_Trsf_SetScaleFactor scale gp_Trsf_new = Done scaler ->
        gp_Trsf_Multiplied tA scaler = Done r ->
        result_transform (XLocation.ScaledBy this scale h) = Return r).
Proof.
  intros Hthis.
  rewrite (ScaledBy_run h this scale tA Hthis).
  destruct (gp_Trsf_SetScaleFactor scale gp_Trsf_new) as [scaler|e0] eqn:Hset.
  - unfold composed at 1 2, bind, kernel_call.
    destruct (gp_Trsf_Multiplied tA scaler) as [r|e1] eqn:Hmul; simpl.
    + repeat split; [discriminate | discriminate |].
      intros scaler' r' [= <-] Hmul'.
      rewrite result_transform_composed, Hmul'; reflexivity.
    + repeat split; [| discriminate |].
      * intros e [= <-]; right; exists scaler; split; [reflexivity | exact Hmul].
      * intros scaler' r' [= <-] Hmul'; congruence.
  - simpl; repeat split; [| discriminate | discriminate].
    intros e [= <-]; left; reflexivity.
Qed.

(** A handle that designates nothing cannot be downcast: the run is
    invalid and the store untouched. *)
Lemma Multiplied_dangling h this b :
  h !! b = None -> XLocation.Multiplied this (Some b) h = (Invalid, h).
Proof.
  intros Hb.
  unfold XLocation.Multiplied, bind, XLocation.dynamic_cast_XLocation.
  rewrite Hb; reflexivity.
Qed.

(** C5. A location is never modified, and what the methods return is a new
    location.  After [L.Multiplied(argument)] and after [L.ScaledBy(scale)],
    whatever the argument and the scale, [L] still wraps the transform it
    wrapped and every object of the store is as it was.  A run that returns
    gives the handle of a new [XLocation], at an address that was not in
    use (so neither [L]'s nor the argument's), and that new object is the
    only change to the store; a run that does not return has changed
    nothing, and is either an exception raised by the kernel or, for
    [Multiplied], a run on a handle that designates nothing. *)
Theorem Location_immutable h this location scale tA :
  h !! this = Some (XLocation_obj tA) ->
  ((XLocation.Multiplied this location h).2 !! this = Some (XLocation_obj tA)
   /\ h ⊆ (XLocation.Multiplied this location h).2
   /\ (XLocation.Multiplied this location h).1 <> Return (Some this)
   /\ match XLocation.Multiplied this location h with
      | (Return p, h') =>
          exists a t, p = Some a /\ h !! a = None /\ a <> this
                      /\ location <> Some a
                      /\ h' = <[a := XLocation_obj t]> h
      | (Throw e, h') =>
          h' = h
          /\ exists tB, native_transform h location = Some tB
                        /\ gp_Trsf_IsIdentity tB = false
                        /\ gp_Trsf_Multiplied tB tA = Raised e
      | (Invalid, h') => h' = h /\ valid_handle h location = false
      end)
  /\ ((XLocation.ScaledBy this scale h).2 !! this = Some (XLocation_obj tA)
      /\ h ⊆ (XLocation.ScaledBy this scale h).2
      /\ (XLocation.ScaledBy this scale h).1 <> Return (Some this)
      /\ match XLocation.ScaledBy this scale h with
         | (Return p, h') =>
             exists a t, p = Some a /\ h !! a = None /\ a <> this
                         /\ h' = <[a := XLocation_obj t]> h
         | (Throw e, h') =>
             h' = h
             /\ (gp_Trsf_SetScaleFactor scale gp_Trsf_new = Raised e
                 \/ exists scaler,
                      gp_Trsf_SetScaleFactor scale gp_Trsf_new = Done scaler
                      /\ gp_Trsf_Multiplied tA scaler = Raised e)
         | (Invalid, _) => False
         end).
Proof.
  intros Hthis.
  assert (Hgen : forall m : M handle, allocates m ->
            (m h).2 !! this = Some (XLocation_obj tA)
            /\ h ⊆ (m h).2 /\ (m h).1 <> Return (Some this)).
  { intros m Hm.
    pose proof (allocates_frame m h Hm) as Hsub.
    split; [exact (lookup_weaken _ _ _ _ Hthis Hsub) | split; [exact Hsub |]].
    destruct (m h) as [o h'] eqn:E; simpl; intros ->.
    destruct (allocates_returns m h _ _ Hm E) as (t & [= Hp] & _).
    pose proof (fresh_address_unused h) as Hnew.
    rewrite <- Hp in Hnew; congruence. }
  pose proof (fresh_address_unused h) as Hnew.
  assert (Hne : fresh (dom h) <> this).
  { intros E; rewrite E in Hnew; congruence. }
  split.
  - destruct (Hgen _ (allocates_Multiplied this location)) as (G1 & G2 & G3).
    repeat (split; [assumption|]).
    destruct (valid_handle h location) eqn:Hloc.
    + destruct (fresh_address_distinct h this location tA Hthis Hloc) as [_ Hne2].
      assert (Hnew_obj : forall t,
                exists a t', Some (fresh (dom h)) = Some a /\ h !! a = None
                  /\ a <> this /\ location <> Some a
                  /\ <[fresh (dom h) := XLocation_obj t]> h
                     = <[a := XLocation_obj t']> h).
      { intros t; exists (fresh (dom h)), t; auto. }
      rewrite (Multiplied_run h this location tA Hthis Hloc).
      destruct (native_transform h location) as [tB|] eqn:Harg; [|apply Hnew_obj].
      destruct (gp_Trsf_IsIdentity tB) eqn:Hid; [apply Hnew_obj|].
      unfold composed, bind, kernel_call.
      destruct (gp_Trsf_Multiplied tB tA) as [r|e] eqn:Hmul; [apply Hnew_obj|].
      split; [reflexivity | exists tB; auto].
    + destruct location as [b|]; [|discriminate Hloc].
      unfold valid_handle in Hloc.
      destruct (h !! b) as [o|] eqn:Hb; [discriminate Hloc|].
      rewrite (Multiplied_dangling h this b Hb).
      split; reflexivity.
  - destruct (Hgen _ (allocates_ScaledBy this scale)) as (G1 & G2 & G3).
    repeat (split; [assumption|]).
    rewrite (ScaledBy_run h this scale tA Hthis).
    destruct (gp_Trsf_SetScaleFactor scale gp_Trsf_new) as [scaler|e] eqn:Hset;
      [|split; [reflexivity | left; reflexivity]].
    unfold composed, bind, kernel_call.
    destruct (gp_Trsf_Multiplied tA scaler) as [r|e] eqn:Hmul.
    + exists (fresh (dom h)), r; auto.
    + split; [reflexivity | right; exists scaler; auto].
Qed.

(** C6. If the kernel, asked to set the scale factor of a fresh transform
    to 1.0, gives an identity transform, and composing with an identity
    transform on the right is a no-op in the kernel, then
    [L.ScaledBy(1.0)] returns a location wrapping [L]'s transform. *)
Theorem ScaledBy_one_is_neutral h this tA scaler :
  h !! this = Some (XLocation_obj tA) ->
  gp_Trsf_SetScaleFactor double_one gp_Trsf_new = Done scaler ->
  gp_Trsf_IsIdentity scaler = true ->
  (forall t i, gp_Trsf_IsIdentity i = true -> gp_Trsf_Multiplied t i = Done t) ->
  result_transform (XLocation.ScaledBy this double_one h) = Return tA.
Proof.
  intros Hthis Hset Hid Hunit.
  rewrite (ScaledBy_run h this double_one tA Hthis), Hset.
  rewrite result_transform_composed, (Hunit tA scaler Hid); reflexivity.
Qed.

(** C8. With a live receiver and a well-formed argument, neither method
    returns [nullptr]: a run that returns gives the handle of an
    [XLocation] at an address that was not in use, hence distinct from
    the receiver and from the argument.  The only other outcome is an
    exception raised by the kernel in the composition branch of
    [Multiplied], or in one of the two kernel calls of [ScaledBy]. *)
Theorem results_are_new_locations h this location scale tA :
  h !! this = Some (XLocation_obj tA) ->
  valid_handle h location = true ->
  match XLocation.Multiplied this location h with
  | (Return p, h') =>
      exists a t, p = Some a /\ h !! a = None /\ a <> this /\ location <> Some a
                  /\ h' !! a = Some (XLocation_obj t)
  | (Throw e, _) =>
      exists tB, native_transform h location = Some tB
                 /\ gp_Trsf_IsIdentity tB = false
                 /\ gp_Trsf_Multiplied tB tA = Raised e
  | (Invalid, _) => False
  end
  /\
  match XLocation.ScaledBy this scale h with
  | (Return p, h') =>
      exists a t, p = Some a /\ h !! a = None /\ a <> this
                  /\ h' !! a = Some (XLocation_obj t)
  | (Throw e, _) =>
      gp_Trsf_SetScaleFactor scale gp_Trsf_new = Raised e
      \/ exists scaler, gp_Trsf_SetScaleFactor scale gp_Trsf_new = Done scaler
                        /\ gp_Trsf_Multiplied tA scaler = Raised e
  | (Invalid, _) => False
  end.
Proof.
  intros Hthis Hloc.
  destruct (fresh_address_distinct h this location tA Hthis Hloc) as [Hne1 Hne2].
  pose proof (fresh_address_unused h) as Hnew.
  assert (Hcopy : forall t,
            exists a t', Some (fresh (dom h)) = Some a /\ h !! a = None /\ a <> this
              /\ location <> Some a
              /\ <[fresh (dom h) := XLocation_obj t]> h !! a = Some (XLocation_obj t')).
  { intros t; exists (fresh (dom h)), t.
    rewrite lookup_insert_eq; auto. }
  split.
  - rewrite (Multiplied_run h this location tA Hthis Hloc).
    destruct (native_transform h location) as [tB|] eqn:Harg; [|apply Hcopy].
    destruct (gp_Trsf_IsIdentity tB) eqn:Hid; [apply Hcopy|].
    unfold composed, bind, kernel_call.
    destruct (gp_Trsf_Multiplied tB tA) as [r|e] eqn:Hmul; [apply Hcopy|].
    exists tB; auto.
  - rewrite (ScaledBy_run h this scale tA Hthis).
    destruct (gp_Trsf_SetScaleFactor scale gp_Trsf_new) as [scaler|e] eqn:Hset;
      [|left; reflexivity].
    unfold composed, bind, kernel_call.
    destruct (gp_Trsf_Multiplied tA scaler) as [r|e] eqn:Hmul.
    + destruct (Hcopy r) as (a & t & Ha & Hfree & Hna & _ & Hlook).
      exists a, t; auto.
    + right; exists scaler; auto.
Qed.

(** C9. [L.Multiplied(B)] does not modify [B]: the object [B] designates
    is the same after the call as before, and so is what its [IsIdentity]
    property reads, whichever branch is taken. *)
Theorem Multiplied_preserves_argument h this b (o : @object K Foreign) :
  h !! b = Some o ->
  (XLocation.Multiplied this (Some b) h).2 !! b = Some o
  /\ (XLocation.IsIdentity (Some b) (XLocation.Multiplied this (Some b) h).2).1
     = (XLocation.IsIdentity (Some b) h).1.
Proof.
  intros Hb.
  pose proof (allocates_frame _ h (allocates_Multiplied this (Some b))) as Hsub.
  pose proof (lookup_weaken _ _ _ _ Hb Hsub) as Hb'.
  split; [exact Hb'|].
  unfold XLocation.IsIdentity, bind, XLocation.Ref.
  rewrite Hb', Hb; destruct o as [t|f]; reflexivity.
Qed.

(** C10. The transform wrapped by the result (or the exception thrown)
    depends only on the transforms involved: two calls of [Multiplied]
    whose receivers wrap equal transforms and whose arguments give access
    to equal transforms (or to none: [nullptr] or another implementation)
    agree, in whatever stores and at whatever addresses they run; two
    calls of [ScaledBy] with receivers wrapping equal transforms and the
    same scale agree likewise. *)
Theorem operations_deterministic h1 h2 this1 this2 loc1 loc2 scale tA :
  h1 !! this1 = Some (XLocation_obj tA) ->
  h2 !! this2 = Some (XLocation_obj tA) ->
  valid_handle h1 loc1 = true ->
  valid_handle h2 loc2 = true ->
  native_transform h1 loc1 = native_transform h2 loc2 ->
  result_transform (XLocation.Multiplied this1 loc1 h1)
    = result_transform (XLocation.Multiplied this2 loc2 h2)
  /\ result_transform (XLocation.ScaledBy this1 scale h1)
     = result_transform (XLocation.ScaledBy this2 scale h2).
Proof.
  intros H1 H2 V1 V2 Harg.
  split.
  - rewrite (Multiplied_run h1 this1 loc1 tA H1 V1).
    rewrite (Multiplied_run h2 this2 loc2 tA H2 V2).
    rewrite Harg.
    destruct (native_transform h2 loc2) as [tB|].
    + destruct (gp_Trsf_IsIdentity tB).
      * rewrite !result_transform_copy; reflexivity.
      * rewrite !result_transform_composed; reflexivity.
    + rewrite !result_transform_copy; reflexivity.
  - rewrite (ScaledBy_run h1 this1 scale tA H1).
    rewrite (ScaledBy_run h2 this2 scale tA H2).
    destruct (gp_Trsf_SetScaleFactor scale gp_Trsf_new) as [scaler|e].
    + rewrite !result_transform_composed; reflexivity.
    + reflexivity.
Qed.
End Properties.

(** ** The methods run on the sample stores *)

Section Kernel1DRuns.
Import Kernel1D.

#[local] Open Scope positive_scope.

Lemma Kernel1D_identity_is_right_unit (t i : gp_Trsf) :
  gp_Trsf_IsIdentity i = true -> gp_Trsf_Multiplied t i = Done t.
Proof. cbn; unfold multiplied; intros ->; reflexivity. Qed.

(** The order of composition shows: with [A] the shift by one and [B]
    the doubling, [A.Multiplied(B)] wraps [x |-> 2 * (x + 1)] and
    [B.Multiplied(A)] wraps [x |-> 2 * x + 1]. *)
Example Multiplied_shift_then_twice :
  result_transform (XLocation.Multiplied 1 (Some 2) store)
    = Return (Trsf double_two double_two).
Proof. reflexivity. Qed.

Example Multiplied_twice_then_shift :
  result_transform (XLocation.Multiplied 2 (Some 1) store)
    = Return (Trsf double_two double_one).
Proof. reflexivity. Qed.

Example Multiplied_nullptr :
  result_transform (XLocation.Multiplied 2 None store) = Return twice.
Proof. reflexivity. Qed.

Example Multiplied_other_implementation :
  result_transform (XLocation.Multiplied 2 (Some 3) store) = Return twice.
Proof. reflexivity. Qed.

Example Multiplied_identity_argument :
  result_transform (XLocation.Multiplied 2 (Some 4) store) = Return twice.
Proof. reflexivity. Qed.

(** Scale zero goes through: the result wraps the collapsed transform
    [x |-> 0 * x + 1]. *)
Example ScaledBy_zero :
  XLocation.ScaledBy 1 double_zero store
    = (Return (Some 5), <[5 := XLocation_obj (Trsf double_zero double_one)]> store).
Proof. reflexivity. Qed.

Example ScaledBy_minus_one :
  result_transform (XLocation.ScaledBy 1 double_minus_one store)
    = Return (Trsf double_minus_one double_one).
Proof. reflexivity. Qed.

Example ScaledBy_infinity :
  result_transform (XLocation.ScaledBy 1 double_infinity store)
    = Return (Trsf double_infinity double_one).
Proof. reflexivity. Qed.

(** A factor this kernel refuses: its exception comes out unchanged. *)
Example ScaledBy_nan :
  XLocation.ScaledBy 1 double_nan store = (Throw ConstructionError, store).
Proof. reflexivity. Qed.
End Kernel1DRuns.

(** ** The theorems at concrete inputs *)

Section Instances.
Import Kernel1D.

#[local] Open Scope positive_scope.

Lemma Multiplied_composes_argument_first_witness :
  XLocation.Multiplied 1 (Some 2) store =
    (Return (Some (fresh (dom store))),
     <[fresh (dom store) := XLocation_obj (Trsf double_two double_two)]> store)
  /\ store !! fresh (dom store) = None
  /\ result_transform (XLocation.Multiplied 1 (Some 2) store)
     = Return (Trsf double_two double_two)
  /\ forall r', gp_Trsf_Multiplied shift_one twice = Done r' ->
       r' <> Trsf double_two double_two ->
       result_transform (XLocation.Multiplied 1 (Some 2) store) <> Return r'.
Proof.
  apply (Multiplied_composes_argument_first store 1 2 shift_one twice
           (Trsf double_two double_two)); reflexivity.
Defined.

Lemma Multiplied_short_circuit_witness :
  XLocation.Multiplied 2 (Some 4) store =
    (Return (Some (fresh (dom store))),
     <[fresh (dom store) := XLocation_obj twice]> store)
  /\ store !! fresh (dom store) = None
  /\ result_transform (XLocation.Multiplied 2 (Some 4) store) = Return twice.
Proof.
  apply (Multiplied_short_circuit store 2 (Some 4) twice); [reflexivity|].
  right; right; exists 4, identity; repeat split; reflexivity.
Defined.

Lemma ScaledBy_composes_scaler_last_witness :
  XLocation.ScaledBy 1 double_two store =
    (Return (Some (fresh (dom store))),
     <[fresh (dom store) := XLocation_obj (Trsf double_two double_one)]> store)
  /\ store !! fresh (dom store) = None
  /\ result_transform (XLocation.ScaledBy 1 double_two store)
     = Return (Trsf double_two double_one).
Proof.
  apply (ScaledBy_composes_scaler_last store 1 double_two shift_one
           (Trsf double_two double_zero) (Trsf double_two double_one));
    reflexivity.
Defined.

Lemma ScaledBy_defers_to_kernel_witness :
  (forall e, (XLocation.ScaledBy 1 double_zero store).1 = Throw e ->
     gp_Trsf_SetScaleFactor double_zero gp_Trsf_new = Raised e
     \/ exists scaler, gp_Trsf_SetScaleFactor double_zero gp_Trsf_new = Done scaler
                       /\ gp_Trsf_Multiplied shift_one scaler = Raised e)
  /\ (XLocation.ScaledBy 1 double_zero store).1 <> Invalid
  /\ (forall scaler r,
        gp_Trsf_SetScaleFactor double_zero gp_Trsf_new = Done scaler ->
        gp_Trsf_Multiplied shift_one scaler = Done r ->
        result_transform (XLocation.ScaledBy 1 double_zero store) = Return r).
Proof.
  apply (ScaledBy_defers_to_kernel store 1 double_zero shift_one); reflexivity.
Defined.

Lemma Location_immutable_witness :
  ((XLocation.Multiplied 1 (Some 2) store).2 !! 1 = Some (XLocation_obj shift_one)
   /\ store ⊆ (XLocation.Multiplied 1 (Some 2) store).2
   /\ (XLocation.Multiplied 1 (Some 2) store).1 <> Return (Some 1)
   /\ match XLocation.Multiplied 1 (Some 2) store with
      | (Return p, h') =>
          exists a t, p = Some a /\ store !! a = None /\ a <> 1
                      /\ Some 2 <> Some a
                      /\ h' = <[a := XLocation_obj t]> store
      | (Throw e, h') =>
          h' = store
          /\ exists tB, native_transform store (Some 2) = Some tB
                        /\ gp_Trsf_IsIdentity tB = false
                        /\ gp_Trsf_Multiplied tB shift_one = Raised e
      | (Invalid, h') => h' = store /\ valid_handle store (Some 2) = false
      end)
  /\ ((XLocation.ScaledBy 1 double_two store).2 !! 1 = Some (XLocation_obj shift_one)
      /\ store ⊆ (XLocation.ScaledBy 1 double_two store).2
      /\ (XLocation.ScaledBy 1 double_two store).1 <> Return (Some 1)
      /\ match XLocation.ScaledBy 1 double_two store with
         | (Return p, h') =>
             exists a t, p = Some a /\ store !! a = None /\ a <> 1
                         /\ h' = <[a := XLocation_obj t]> store
         | (Throw e, h') =>
             h' = store
             /\ (gp_Trsf_SetScaleFactor double_two gp_Trsf_new = Raised e
                 \/ exists scaler,
                      gp_Trsf_SetScaleFactor double_two gp_Trsf_new = Done scaler
                      /\ gp_Trsf_Multiplied shift_one scaler = Raised e)
         | (Invalid, _) => False
         end).
Proof.
  apply (Location_immutable store 1 (Some 2) double_two shift_one); reflexivity.
Defined.

Lemma ScaledBy_one_is_neutral_witness :
  result_transform (XLocation.ScaledBy 1 double_one store) = Return shift_one.
Proof.
  apply (ScaledBy_one_is_neutral store 1 shift_one identity);
    [reflexivity | reflexivity | reflexivity |].
  exact Kernel1D_identity_is_right_unit.
Defined.

Lemma results_are_new_locations_witness :
  match XLocation.Multiplied 1 (Some 2) store with
  | (Return p, h') =>
      exists a t, p = Some a /\ store !! a = None /\ a <> 1 /\ Some 2 <> Some a
                  /\ h' !! a = Some (XLocation_obj t)
  | (Throw e, _) =>
      exists tB, native_transform store (Some 2) = Some tB
                 /\ gp_Trsf_IsIdentity tB = false
                 /\ gp_Trsf_Multiplied tB shift_one = Raised e
  | (Invalid, _) => False
  end
  /\
  match XLocation.ScaledBy 1 double_two store with
  | (Return p, h') =>
      exists a t, p = Some a /\ store !! a = None /\ a <> 1
                  /\ h' !! a = Some (XLocation_obj t)
  | (Throw e, _) =>
      gp_Trsf_SetScaleFactor double_two gp_Trsf_new = Raised e
      \/ exists scaler, gp_Trsf_SetScaleFactor double_two gp_Trsf_new = Done scaler
                        /\ gp_Trsf_Multiplied shift_one scaler = Raised e
  | (Invalid, _) => False
  end.
Proof.
  apply (results_are_new_locations store 1 (Some 2) double_two shift_one);
    reflexivity.
Defined.

Lemma Multiplied_preserves_argument_witness :
  (XLocation.Multiplied 1 (Some 2) store).2 !! 2 = Some (XLocation_obj twice)
  /\ (XLocation.IsIdentity (Some 2) (XLocation.Multiplied 1 (Some 2) store).2).1
     = (XLocation.IsIdentity (Some 2) store).1.
Proof.
  apply (Multiplied_preserves_argument store 1 2 (XLocation_obj (K := kernel) twice));
    reflexivity.
Defined.

Lemma operations_deterministic_witness :
  result_transform (XLocation.Multiplied 1 (Some 2) store)
    = result_transform (XLocation.Multiplied 7 (Some 9) other_store)
  /\ result_transform (XLocation.ScaledBy 1 double_three store)
     = result_transform (XLocation.ScaledBy 7 double_three other_store).
Proof.
  apply (operations_deterministic store other_store 1 7 (Some 2) (Some 9)
           double_three shift_one); reflexivity.
Defined.
End Instances.


(** ** Calls run one after the other *)

Section CallLemmas.
Context {K : TransformKernel} {Foreign : Type}.

#[local] Abbreviation store := (gmap address (@object K Foreign)).

Implicit Types (h : store) (this a b : address) (location p : handle).
Implicit Types (tA tB r : gp_Trsf) (c : call).

Lemma allocates_invoke c : allocates (invoke (Foreign := Foreign) c).
Proof. destruct c; [apply allocates_Multiplied | apply allocates_ScaledBy]. Qed.

Lemma invoke_frame c h : h ⊆ (invoke c h).2.
Proof. apply allocates_frame, allocates_invoke. Qed.

Lemma gcnew_keeps h (o v : @object K Foreign) a :
  h !! a = Some v -> <[fresh (dom h) := o]> h !! a = Some v.
Proof.
  intros Ha; eapply lookup_weaken; [exact Ha|].
  apply insert_subseteq, fresh_address_unused.
Qed.

Lemma composed_returns h x y r :
  gp_Trsf_Multiplied x y = Done r ->
  composed x y h =
    (Return (Some (fresh (dom h))), <[fresh (dom h) := XLocation_obj r]> h).
Proof. intros E; unfold composed, bind, kernel_call; rewrite E; reflexivity. Qed.

Lemma composed_throws h x y e :
  gp_Trsf_Multiplied x y = Raised e -> composed x y h = (Throw e, h).
Proof. intros E; unfold composed, bind, kernel_call; rewrite E; reflexivity. Qed.

(** [Multiplied] with a live [XLocation] as argument. *)
Lemma Multiplied_run_native h this b tA tB :
  h !! this = Some (XLocation_obj tA) ->
  h !! b = Some (XLocation_obj tB) ->
  XLocation.Multiplied this (Some b) h =
    if gp_Trsf_IsIdentity tB then copy_of_receiver tA h else composed tB tA h.
Proof.
  intros Hthis Hb.
  rewrite (Multiplied_run h this (Some b) tA Hthis).
  - unfold native_transform; rewrite Hb; reflexivity.
  - unfold valid_handle; rewrite Hb; reflexivity.
Qed.

Lemma ScaledBy_run_scaler h this scale tA scaler :
  h !! this = Some (XLocation_obj tA) ->
  gp_Trsf_SetScaleFactor scale gp_Trsf_new = Done scaler ->
  XLocation.ScaledBy this scale h = composed tA scaler h.
Proof.
  intros Hthis Hset.
  rewrite (ScaledBy_run h this scale tA Hthis), Hset; reflexivity.
Qed.

Lemma live_XLocation_inv h a :
  live_XLocation h a = true -> exists t, h !! a = Some (XLocation_obj t).
Proof.
  unfold live_XLocation; destruct (h !! a) as [[t|f]|]; try discriminate; eauto.
Qed.

Lemma valid_handle_weaken h h1 p :
  h ⊆ h1 -> valid_handle h p = true ->
  valid_handle h1 p = true /\ native_transform h1 p = native_transform h p.
Proof.
  intros Hsub; destruct p as [a|]; [|split; reflexivity].
  unfold valid_handle, native_transform.
  destruct (h !! a) as [o|] eqn:Ha; [|discriminate].
  rewrite (lookup_weaken _ _ _ _ Ha Hsub); split; reflexivity.
Qed.

(** The transform a call yields, read off the transforms it has access
    to. *)
Lemma result_transform_Multiplied h this location tA :
  h !! this = Some (XLocation_obj tA) ->
  valid_handle h location = true ->
  result_transform (XLocation.Multiplied this location h) =
    match native_transform h location with
    | Some tB =>
        if gp_Trsf_IsIdentity tB then Return tA
        else match gp_Trsf_Multiplied tB tA with
             | Done r => Return r
             | Raised e => Throw e
             end
    | None => Return tA
    end.
Proof.
  intros Hthis Hloc.
  rewrite (Multiplied_run h this location tA Hthis Hloc).
  destruct (native_transform h location) as [tB|];
    [destruct (gp_Trsf_IsIdentity tB)|];
    auto using result_transform_copy, result_transform_composed.
Qed.

Lemma result_transform_ScaledBy h this scale tA :
  h !! this = Some (XLocation_obj tA) ->
  result_transform (XLocation.ScaledBy this scale h) =
    match gp_Trsf_SetScaleFactor scale gp_Trsf_new with
    | Done scaler =>
        match gp_Trsf_Multiplied tA scaler with
        | Done r => Return r
        | Raised e => Throw e
        end
    | Raised e => Throw e
    end.
Proof.
  intros Hthis.
  rewrite (ScaledBy_run h this scale tA Hthis).
  destruct (gp_Trsf_SetScaleFactor scale gp_Trsf_new) as [scaler|e];
    [apply result_transform_composed | reflexivity].
Qed.

Lemma result_transform_larger_store h h1 c :
  h ⊆ h1 -> call_ready h c = true ->
  result_transform (invoke c h1) = result_transform (invoke c h).
Proof.
  intros Hsub Hready; destruct c as [this location | this scale]; simpl in *.
  - apply andb_prop in Hready as [Hlive Hloc].
    destruct (live_XLocation_inv h this Hlive) as [tA Hthis].
    destruct (valid_handle_weaken h h1 location Hsub Hloc) as [Hloc1 Hnat].
    rewrite (result_transform_Multiplied h this location tA Hthis Hloc).
    rewrite (result_transform_Multiplied h1 this location tA
               (lookup_weaken _ _ _ _ Hthis Hsub) Hloc1).
    rewrite Hnat; reflexivity.
  - destruct (live_XLocation_inv h this Hready) as [tA Hthis].
    rewrite (result_transform_ScaledBy h this scale tA Hthis).
    rewrite (result_transform_ScaledBy h1 this scale tA
               (lookup_weaken _ _ _ _ Hthis Hsub)).
    reflexivity.
Qed.
End CallLemmas.

(** ** Further properties of the two methods *)

Section CallProperties.
Context {K : TransformKernel} {Foreign : Type}.

#[local] Abbreviation store := (gmap address (@object K Foreign)).

Implicit Types (h : store) (this a b d : address) (location : handle).
Implicit Types (tA tB tC p q r scaler : gp_Trsf) (scale : double).

(** X1. A call allocates once or not at all.  When it returns, the store
    has exactly one object more, at the address that was free, and the
    handle returned is that address; when it does not return, the store is
    exactly the store it started from.  This holds for every receiver,
    argument and scale. *)
Theorem call_allocates_once_or_nothing (c : call) h :
  match invoke c h with
  | (Return res, h') =>
      res = Some (fresh (dom h))
      /\ h !! fresh (dom h) = None
      /\ dom h' = {[fresh (dom h)]} ∪ dom h
      /\ size h' = S (size h)
  | (_, h') => h' = h
  end.
Proof.
  pose proof (allocates_invoke c h) as Hc.
  pose proof (fresh_address_unused h) as Hnew.
  destruct (invoke c h) as [[res|e|] h']; try exact Hc.
  destruct Hc as (t & -> & ->).
  repeat split; [exact Hnew | apply dom_insert_L |].
  apply map_size_insert_None, Hnew.
Qed.

(** X2. In the composition branch of [Multiplied] an exception the kernel
    raises comes out of the method unchanged, and nothing has been
    allocated. *)
Theorem Multiplied_propagates_kernel_exception h this b tA tB e :
  h !! this = Some (XLocation_obj tA) ->
  h !! b = Some (XLocation_obj tB) ->
  gp_Trsf_IsIdentity tB = false ->
  gp_Trsf_Multiplied tB tA = Raised e ->
  XLocation.Multiplied this (Some b) h = (Throw e, h).
Proof.
  intros Hthis Hb Hid Hmul.
  rewrite (Multiplied_run_native h this b tA tB Hthis Hb), Hid.
  apply composed_throws, Hmul.
Qed.

(** X3. An exception the kernel raises in [ScaledBy], from
    [SetScaleFactor] or from the composition that follows, comes out of
    the method unchanged, and nothing has been allocated. *)
Theorem ScaledBy_propagates_kernel_exception h this scale tA e :
  h !! this = Some (XLocation_obj tA) ->
  (gp_Trsf_SetScaleFactor scale gp_Trsf_new = Raised e
   \/ exists scaler, gp_Trsf_SetScaleFactor scale gp_Trsf_new = Done scaler
                     /\ gp_Trsf_Multiplied tA scaler = Raised e) ->
  XLocation.ScaledBy this scale h = (Throw e, h).
Proof.
  intros Hthis [Hset | (scaler & Hset & Hmul)].
  - rewrite (ScaledBy_run h this scale tA Hthis), Hset; reflexivity.
  - rewrite (ScaledBy_run_scaler h this scale tA scaler Hthis Hset).
    apply composed_throws, Hmul.
Qed.

(** X4. Calls chain: the location [A.Multiplied(B)] returns can be the
    receiver of a further [Multiplied(C)], with [C] any location that was
    live before, and the result then wraps
    [C.transform.Multiplied(B.transform.Multiplied(A.transform))]. *)
Theorem Multiplied_chain h this b d tA tB tC p r :
  h !! this = Some (XLocation_obj tA) ->
  h !! b = Some (XLocation_obj tB) ->
  h !! d = Some (XLocation_obj tC) ->
  gp_Trsf_IsIdentity tB = false ->
  gp_Trsf_IsIdentity tC = false ->
  gp_Trsf_Multiplied tB tA = Done p ->
  gp_Trsf_Multiplied tC p = Done r ->
  exists a h1,
    XLocation.Multiplied this (Some b) h = (Return (Some a), h1)
    /\ result_transform (XLocation.Multiplied a (Some d) h1) = Return r.
Proof.
  intros Hthis Hb Hc HidB HidC Hp Hr.
  exists (fresh (dom h)), (<[fresh (dom h) := XLocation_obj p]> h); split.
  - rewrite (Multiplied_run_native h this b tA tB Hthis Hb), HidB.
    apply composed_returns, Hp.
  - rewrite (Multiplied_run_native _ _ d p tC
               (lookup_insert_eq _ _ _) (gcnew_keeps h _ _ d Hc)), HidC.
    rewrite result_transform_composed, Hr; reflexivity.
Qed.

(** X5. Scalings chain on the right: [L.ScaledBy(s1)] followed by
    [ScaledBy(s2)] on its result wraps
    [L.transform.Multiplied(scaler1).Multiplied(scaler2)]. *)
Theorem ScaledBy_chain h this s1 s2 tA scaler1 scaler2 p r :
  h !! this = Some (XLocation_obj tA) ->
  gp_Trsf_SetScaleFactor s1 gp_Trsf_new = Done scaler1 ->
  gp_Trsf_SetScaleFactor s2 gp_Trsf_new = Done scaler2 ->
  gp_Trsf_Multiplied tA scaler1 = Done p ->
  gp_Trsf_Multiplied p scaler2 = Done r ->
  exists a h1,
    XLocation.ScaledBy this s1 h = (Return (Some a), h1)
    /\ result_transform (XLocation.ScaledBy a s2 h1) = Return r.
Proof.
  intros Hthis Hs1 Hs2 Hp Hr.
  exists (fresh (dom h)), (<[fresh (dom h) := XLocation_obj p]> h); split.
  - rewrite (ScaledBy_run_scaler h this s1 tA scaler1 Hthis Hs1).
    apply composed_returns, Hp.
  - rewrite (ScaledBy_run_scaler _ _ s2 p scaler2 (lookup_insert_eq _ _ _) Hs2).
    rewrite result_transform_composed, Hr; reflexivity.
Qed.

(** X6. [Multiplied] puts the argument's transform on the left of the
    receiver's and [ScaledBy] puts the scaler on its right, so the two can
    be done in either order: [A.Multiplied(B)] then [ScaledBy(s)] wraps
    [(B.A).scaler], [A.ScaledBy(s)] then [Multiplied(B)] wraps
    [B.(A.scaler)], and the two results are the same transform whenever
    the kernel's composition is associative at these three transforms. *)
Theorem scaling_commutes_with_composition h this b scale tA tB scaler p q r :
  h !! this = Some (XLocation_obj tA) ->
  h !! b = Some (XLocation_obj tB) ->
  gp_Trsf_IsIdentity tB = false ->
  gp_Trsf_SetScaleFactor scale gp_Trsf_new = Done scaler ->
  gp_Trsf_Multiplied tB tA = Done p ->
  gp_Trsf_Multiplied tA scaler = Done q ->
  gp_Trsf_Multiplied p scaler = Done r ->
  gp_Trsf_Multiplied tB q = Done r ->
  exists a1 h1 a2 h2,
    XLocation.Multiplied this (Some b) h = (Return (Some a1), h1)
    /\ XLocation.ScaledBy this scale h = (Return (Some a2), h2)
    /\ result_transform (XLocation.ScaledBy a1 scale h1) = Return r
    /\ result_transform (XLocation.Multiplied a2 (Some b) h2) = Return r.
Proof.
  intros Hthis Hb HidB Hset Hp Hq Hr1 Hr2.
  exists (fresh (dom h)), (<[fresh (dom h) := XLocation_obj p]> h),
         (fresh (dom h)), (<[fresh (dom h) := XLocation_obj q]> h).
  split; [|split; [|split]].
  - rewrite (Multiplied_run_native h this b tA tB Hthis Hb), HidB.
    apply composed_returns, Hp.
  - rewrite (ScaledBy_run_scaler h this scale tA scaler Hthis Hset).
    apply composed_returns, Hq.
  - rewrite (ScaledBy_run_scaler _ _ scale p scaler (lookup_insert_eq _ _ _) Hset).
    rewrite result_transform_composed, Hr1; reflexivity.
  - rewrite (Multiplied_run_native _ _ b q tB
               (lookup_insert_eq _ _ _) (gcnew_keeps h _ _ b Hb)), HidB.
    rewrite result_transform_composed, Hr2; reflexivity.
Qed.

(** X7. Only the argument is tested for identity, not the receiver.  With
    [I] a location wrapping an identity transform and [L] any location:
    [L.Multiplied(I)] returns a new location wrapping [L]'s transform,
    whatever the kernel's composition would do; [I.Multiplied(L)], when [L]
    is not an identity, is the kernel's [L.transform.Multiplied(I.transform)]:
    its product wrapped in a new location, or its exception thrown; when
    [L] is an identity too, it returns a new location wrapping [I]'s own
    transform. *)
Theorem only_the_argument_is_tested_for_identity h this i tL tI :
  h !! this = Some (XLocation_obj tL) ->
  h !! i = Some (XLocation_obj tI) ->
  gp_Trsf_IsIdentity tI = true ->
  XLocation.Multiplied this (Some i) h =
    (Return (Some (fresh (dom h))), <[fresh (dom h) := XLocation_obj tL]> h)
  /\ XLocation.Multiplied i (Some this) h =
       if gp_Trsf_IsIdentity tL
       then (Return (Some (fresh (dom h))), <[fresh (dom h) := XLocation_obj tI]> h)
       else match gp_Trsf_Multiplied tL tI with
            | Done r =>
                (Return (Some (fresh (dom h))),
                 <[fresh (dom h) := XLocation_obj r]> h)
            | Raised e => (Throw e, h)
            end.
Proof.
  intros Hthis Hi Hid; split.
  - rewrite (Multiplied_run_native h this i tL tI Hthis Hi), Hid; reflexivity.
  - rewrite (Multiplied_run_native h i this tI tL Hi Hthis).
    destruct (gp_Trsf_IsIdentity tL); [reflexivity|].
    destruct (gp_Trsf_Multiplied tL tI) as [r|e] eqn:Hmul.
    + apply composed_returns, Hmul.
    + apply composed_throws, Hmul.
Qed.

(** X8. Calls do not interfere: whatever call was made before, and
    whatever its outcome, a call whose receiver and argument were live
    before it yields the same transform (or the same exception) as if the
    earlier call had not been made. *)
Theorem calls_do_not_interfere h (earlier c : call) :
  call_ready h c = true ->
  result_transform (invoke c (invoke earlier h).2) = result_transform (invoke c h).
Proof.
  intros Hready.
  apply result_transform_larger_store; [apply invoke_frame | exact Hready].
Qed.

(** X9. Results are never shared: two calls that return, made one after
    the other, return handles to two different objects, both live
    [XLocation]s in the final store, even when the two calls are the
    same. *)
Theorem successive_results_distinct h (c1 c2 : call) (p1 p2 : handle) h1 h2 :
  invoke c1 h = (Return p1, h1) ->
  invoke c2 h1 = (Return p2, h2) ->
  p1 <> p2
  /\ exists a1 a2 t1 t2,
       p1 = Some a1 /\ p2 = Some a2
       /\ h2 !! a1 = Some (XLocation_obj t1)
       /\ h2 !! a2 = Some (XLocation_obj t2).
Proof.
  intros E1 E2.
  destruct (allocates_returns _ h p1 h1 (allocates_invoke c1) E1) as (t1 & -> & ->).
  destruct (allocates_returns _ _ p2 h2 (allocates_invoke c2) E2) as (t2 & -> & ->).
  set (h1 := <[fresh (dom h) := XLocation_obj t1]> h).
  assert (H1 : h1 !! fresh (dom h) = Some (XLocation_obj t1))
    by apply lookup_insert_eq.
  split.
  - intros [= E].
    pose proof (fresh_address_unused h1) as Hnew.
    rewrite <- E in Hnew; congruence.
  - exists (fresh (dom h)), (fresh (dom h1)), t1, t2.
    repeat split; [apply gcnew_keeps, H1 | apply lookup_insert_eq].
Qed.

(** X10. Along any sequence of calls the store only grows: every object
    present at the start is present and unchanged at the end, and the
    store has grown by exactly as many objects as calls returned. *)
Theorem store_grows_along_calls (cs : list call) h :
  h ⊆ run_calls cs h
  /\ size (run_calls cs h) = size h + returned_calls cs h.
Proof.
  revert h; induction cs as [|c cs IH]; intros h; simpl.
  - split; [reflexivity | lia].
  - destruct (IH (invoke c h).2) as [Hsub Hsize].
    split; [etrans; [apply invoke_frame | exact Hsub]|].
    rewrite Hsize.
    pose proof (allocates_invoke c h) as Hc.
    destruct (invoke c h) as [[res|e|] h']; simpl in *.
    + destruct Hc as (t & _ & ->).
      rewrite (map_size_insert_None _ _ _ (fresh_address_unused h)); lia.
    + subst h'; reflexivity.
    + subst h'; reflexivity.
Qed.

(** X11. If composing with an identity transform on the right is a no-op
    in the kernel, a location [I] wrapping an identity transform is
    neutral as a receiver: for [L] not an identity, [I.Multiplied(L)]
    returns a location wrapping [L]'s transform. *)
Theorem identity_receiver_is_neutral h this i tL tI :
  h !! this = Some (XLocation_obj tL) ->
  h !! i = Some (XLocation_obj tI) ->
  gp_Trsf_IsIdentity tI = true ->
  gp_Trsf_IsIdentity tL = false ->
  (forall t u, gp_Trsf_IsIdentity u = true -> gp_Trsf_Multiplied t u = Done t) ->
  result_transform (XLocation.Multiplied i (Some this) h) = Return tL.
Proof.
  intros Hthis Hi HidI HidL Hunit.
  rewrite (Multiplied_run_native h i this tI tL Hi Hthis), HidL.
  rewrite result_transform_composed, (Hunit tL tI HidI); reflexivity.
Qed.
End CallProperties.

(** ** Call sequences on the sample stores *)

Section CallRuns.
#[local] Open Scope positive_scope.

(** Doubling 2^1023 overflows: the checked kernel raises, the method
    throws, the store is as before. *)
Example Multiplied_overflow :
  XLocation.Multiplied (K := KernelChecked.kernel) 1 (Some 2) KernelChecked.store
    = (Throw (K := KernelChecked.kernel) KernelChecked.NumericError, KernelChecked.store).
Proof. reflexivity. Qed.

Example ScaledBy_overflow :
  XLocation.ScaledBy (K := KernelChecked.kernel) 1 double_two KernelChecked.store
    = (Throw (K := KernelChecked.kernel) KernelChecked.NumericError, KernelChecked.store).
Proof. reflexivity. Qed.

(** Of three calls, the first throws and the other two return: the store
    ends with two objects more. *)
Example three_calls_two_returned :
  returned_calls (K := KernelChecked.kernel)
    [Call_Multiplied 1 (Some 2); Call_Multiplied 2 None; Call_ScaledBy 2 double_three]
    KernelChecked.store = 2%nat
  /\ size (run_calls (K := KernelChecked.kernel)
             [Call_Multiplied 1 (Some 2); Call_Multiplied 2 None;
              Call_ScaledBy 2 double_three]
             KernelChecked.store) = 5%nat.
Proof. split; reflexivity. Qed.

(** With the recording kernel: an identity receiver is not short-circuited
    (the kernel's product [2.0; 1.0] comes back), an identity argument is
    (the receiver's [2.0] comes back). *)
Example Multiplied_identity_receiver_asks_kernel :
  result_transform
    (XLocation.Multiplied (K := KernelTrace.kernel) 2 (Some 1) KernelTrace.store)
    = Return (K := KernelTrace.kernel) [double_two; double_one].
Proof. reflexivity. Qed.

Example Multiplied_identity_argument_skips_kernel :
  result_transform
    (XLocation.Multiplied (K := KernelTrace.kernel) 1 (Some 2) KernelTrace.store)
    = Return (K := KernelTrace.kernel) [double_two].
Proof. reflexivity. Qed.

Lemma Multiplied_propagates_kernel_exception_witness :
  XLocation.Multiplied (K := KernelChecked.kernel) 1 (Some 2) KernelChecked.store
    = (Throw (K := KernelChecked.kernel) KernelChecked.NumericError, KernelChecked.store).
Proof.
  apply (Multiplied_propagates_kernel_exception (K := KernelChecked.kernel)
           KernelChecked.store 1 2 KernelChecked.huge Kernel1D.twice
           KernelChecked.NumericError); reflexivity.
Defined.

Lemma ScaledBy_propagates_kernel_exception_witness :
  XLocation.ScaledBy (K := KernelChecked.kernel) 2 double_zero KernelChecked.store
    = (Throw (K := KernelChecked.kernel) KernelChecked.ConstructionError, KernelChecked.store).
Proof.
  apply (ScaledBy_propagates_kernel_exception (K := KernelChecked.kernel)
           KernelChecked.store 2 double_zero Kernel1D.twice
           KernelChecked.ConstructionError); [reflexivity|].
  left; reflexivity.
Defined.

Lemma Multiplied_chain_witness :
  exists a h1,
    XLocation.Multiplied 1 (Some 2) Kernel1D.store = (Return (Some a), h1)
    /\ result_transform (XLocation.Multiplied a (Some 1) h1)
       = Return (Kernel1D.Trsf double_two double_three).
Proof.
  apply (Multiplied_chain Kernel1D.store 1 2 1 Kernel1D.shift_one Kernel1D.twice
           Kernel1D.shift_one (Kernel1D.Trsf double_two double_two)
           (Kernel1D.Trsf double_two double_three)); reflexivity.
Defined.

Lemma ScaledBy_chain_witness :
  exists a h1,
    XLocation.ScaledBy 1 double_two Kernel1D.store = (Return (Some a), h1)
    /\ result_transform (XLocation.ScaledBy a double_three h1)
       = Return (Kernel1D.Trsf double_six double_one).
Proof.
  apply (ScaledBy_chain Kernel1D.store 1 double_two double_three Kernel1D.shift_one
           (Kernel1D.Trsf double_two double_zero)
           (Kernel1D.Trsf double_three double_zero)
           (Kernel1D.Trsf double_two double_one)
           (Kernel1D.Trsf double_six double_one)); reflexivity.
Defined.

Lemma scaling_commutes_with_composition_witness :
  exists a1 h1 a2 h2,
    XLocation.Multiplied 1 (Some 2) Kernel1D.store = (Return (Some a1), h1)
    /\ XLocation.ScaledBy 1 double_three Kernel1D.store = (Return (Some a2), h2)
    /\ result_transform (XLocation.ScaledBy a1 double_three h1)
       = Return (Kernel1D.Trsf double_six double_two)
    /\ result_transform (XLocation.Multiplied a2 (Some 2) h2)
       = Return (Kernel1D.Trsf double_six double_two).
Proof.
  apply (scaling_commutes_with_composition Kernel1D.store 1 2 double_three
           Kernel1D.shift_one Kernel1D.twice
           (Kernel1D.Trsf double_three double_zero)
           (Kernel1D.Trsf double_two double_two)
           (Kernel1D.Trsf double_three double_one)
           (Kernel1D.Trsf double_six double_two)); reflexivity.
Defined.

(** With the recording kernel the asymmetry shows in the result: the word
    [2.0; 1.0] is there because the kernel was asked. *)
Lemma only_the_argument_is_tested_for_identity_witness :
  XLocation.Multiplied (K := KernelTrace.kernel) 1 (Some 2) KernelTrace.store =
    (Return (Some (fresh (dom KernelTrace.store))),
     <[fresh (dom KernelTrace.store) := XLocation_obj (K := KernelTrace.kernel) [double_two]]>
       KernelTrace.store)
  /\ XLocation.Multiplied (K := KernelTrace.kernel) 2 (Some 1) KernelTrace.store =
       if @gp_Trsf_IsIdentity KernelTrace.kernel [double_two]
       then (Return (Some (fresh (dom KernelTrace.store))),
             <[fresh (dom KernelTrace.store) := XLocation_obj (K := KernelTrace.kernel) [double_one]]>
               KernelTrace.store)
       else match @gp_Trsf_Multiplied KernelTrace.kernel [double_two] [double_one] with
            | Done r =>
                (Return (Some (fresh (dom KernelTrace.store))),
                 <[fresh (dom KernelTrace.store) := XLocation_obj (K := KernelTrace.kernel) r]>
                   KernelTrace.store)
            | Raised e => (Throw (K := KernelTrace.kernel) e, KernelTrace.store)
            end.
Proof.
  apply (only_the_argument_is_tested_for_identity (K := KernelTrace.kernel)
           KernelTrace.store 1 2 [double_two] [double_one]); reflexivity.
Defined.

Lemma identity_receiver_is_neutral_witness :
  result_transform (XLocation.Multiplied 4 (Some 2) Kernel1D.store)
    = Return Kernel1D.twice.
Proof.
  apply (identity_receiver_is_neutral Kernel1D.store 2 4 Kernel1D.twice
           Kernel1D.identity);
    [reflexivity | reflexivity | reflexivity | reflexivity |].
  exact Kernel1D_identity_is_right_unit.
Defined.

Lemma calls_do_not_interfere_witness :
  result_transform
    (invoke (Call_Multiplied 1 (Some 2))
       (invoke (Call_ScaledBy 1 double_two) Kernel1D.store).2)
  = result_transform (invoke (Call_Multiplied 1 (Some 2)) Kernel1D.store).
Proof.
  apply (calls_do_not_interfere Kernel1D.store (Call_ScaledBy 1 double_two)
           (Call_Multiplied 1 (Some 2))); reflexivity.
Defined.

Lemma successive_results_distinct_witness :
  Some 5 <> Some 6
  /\ exists a1 a2 t1 t2,
       Some 5 = Some a1 /\ Some 6 = Some a2
       /\ (invoke (Call_Multiplied 2 None)
             (invoke (Call_Multiplied 2 None) Kernel1D.store).2).2 !! a1
          = Some (XLocation_obj (K := Kernel1D.kernel) (Foreign := unit) t1)
       /\ (invoke (Call_Multiplied 2 None)
             (invoke (Call_Multiplied 2 None) Kernel1D.store).2).2 !! a2
          = Some (XLocation_obj t2).
Proof.
  apply (successive_results_distinct Kernel1D.store
           (Call_Multiplied 2 None) (Call_Multiplied 2 None) (Some 5) (Some 6)
           (invoke (Call_Multiplied 2 None) Kernel1D.store).2
           (invoke (Call_Multiplied 2 None)
              (invoke (Call_Multiplied 2 None) Kernel1D.store).2).2);
    reflexivity.
Defined.
End CallRuns.
